(** * chatbot_ui.py: the OCR adapter, the remote completion call and the Send handler

    A shallow embedding of [safe_call_ocr], [parse_paddle_result],
    [ask_ollama], the canned-response table, the file uploader and the
    bodies of the Extract Text and Send buttons of [src/chatbot_ui.py],
    followed by the properties established about them.

    Conventions of the embedding.
    - A Python [str] is a Rocq [string] whose characters are read as code
      points 0..255; code points above 255 are outside the model.
    - A Python value is plain data ([value]): None, bool, int, float, str,
      list, tuple and dict with string keys.  A float is carried as the text
      [repr] prints for it: the program only stringifies floats and tests
      their truth value.
    - [exn] stands for an instance of Python's [Exception] class, so
      [except Exception] and a bare [except] both catch every [exn].
    - Code that can raise lives in [res] (pure code) or in [M] (code with
      effects on the [world]: the temporary files on disk, the conversation
      history and an event log of the calls made to the collaborators). *)

From Stdlib Require Import List String Ascii ZArith Bool Lia DecimalString.
Import ListNotations.
#[local] Set Warnings "-register-all".
#[local] Set Warnings "-automation".
#[local] Set Warnings "-notation-overridden".
#[local] Set Warnings "-ambiguous-paths".
Local Open Scope list_scope.
Local Open Scope string_scope.

(* ===================================================================== *)
(** * Part I: the embedding *)
(* ===================================================================== *)

(** ** Python strings *)

Definition code_point (c : ascii) : nat := nat_of_ascii c.

(** [str.isspace] on one character, for code points below 256:
    U+0009..U+000D, U+001C..U+001F, U+0020, U+0085 and U+00A0. *)
Definition isspace (c : ascii) : bool :=
  let n := code_point c in
  (((9 <=? n) && (n <=? 13)) || ((28 <=? n) && (n <=? 32))
   || (n =? 133) || (n =? 160))%nat.

(** [str.isdigit] on one character, for code points below 256: the ASCII
    digits and the superscripts U+00B2, U+00B3 and U+00B9. *)
Definition isdigit (c : ascii) : bool :=
  let n := code_point c in
  (((48 <=? n) && (n <=? 57)) || (n =? 178) || (n =? 179) || (n =? 185))%nat.

(** [str.lower] on one character, for code points below 256. *)
Definition lower_char (c : ascii) : ascii :=
  let n := code_point c in
  if (((65 <=? n) && (n <=? 90))
      || ((192 <=? n) && (n <=? 222) && negb (n =? 215)))%nat
  then ascii_of_nat (n + 32) else c.

Fixpoint lower (s : string) : string :=
  match s with
  | EmptyString => EmptyString
  | String c s' => String (lower_char c) (lower s')
  end.

Fixpoint lstrip (s : string) : string :=
  match s with
  | EmptyString => EmptyString
  | String c s' => if isspace c then lstrip s' else s
  end.

Fixpoint rstrip (s : string) : string :=
  match s with
  | EmptyString => EmptyString
  | String c s' =>
      match rstrip s' with
      | EmptyString => if isspace c then EmptyString else String c EmptyString
      | r => String c r
      end
  end.

(** [s.strip()] *)
Definition strip (s : string) : string := rstrip (lstrip s).

(** Truth value of a string: [if s:] *)
Definition nonempty (s : string) : bool :=
  match s with EmptyString => false | String _ _ => true end.

(** [any(pred(ch) for ch in s)] *)
Fixpoint any_char (p : ascii -> bool) (s : string) : bool :=
  match s with
  | EmptyString => false
  | String c s' => p c || any_char p s'
  end.

(** [all(pred(ch) for ch in s)] *)
Fixpoint all_chars (p : ascii -> bool) (s : string) : bool :=
  match s with
  | EmptyString => true
  | String c s' => p c && all_chars p s'
  end.

(** [k in text] for two strings: [k] occurs in [text] as a substring. *)
Fixpoint contains (k text : string) : bool :=
  prefix k text
  || match text with
     | EmptyString => false
     | String _ text' => contains k text'
     end.

(** [sep.join(parts)] *)
Fixpoint join (sep : string) (parts : list string) : string :=
  match parts with
  | [] => EmptyString
  | [p] => p
  | p :: rest => p ++ sep ++ join sep rest
  end.

(** [str(n)] for an int. *)
Definition str_of_int (n : Z) : string := NilZero.string_of_int (Z.to_int n).

(** ** Python values *)

Inductive value : Type :=
| VNone
| VBool (b : bool)
| VInt (n : Z)
| VFloat (repr : string)
| VStr (s : string)
| VList (xs : list value)
| VTuple (xs : list value)
| VDict (kvs : list (string * value)).

Definition type_name (v : value) : string :=
  match v with
  | VNone => "NoneType"
  | VBool _ => "bool"
  | VInt _ => "int"
  | VFloat _ => "float"
  | VStr _ => "str"
  | VList _ => "list"
  | VTuple _ => "tuple"
  | VDict _ => "dict"
  end.

(** Two lowercase hexadecimal digits of a code point. *)
Definition hex_digit (n : nat) : ascii :=
  if (n <? 10)%nat then ascii_of_nat (48 + n) else ascii_of_nat (87 + n).

Definition hex2 (n : nat) : string :=
  String (hex_digit (n / 16)) (String (hex_digit (n mod 16)) EmptyString).

Definition backslash : ascii := ascii_of_nat 92.
Definition single_quote : ascii := ascii_of_nat 39.
Definition double_quote : ascii := ascii_of_nat 34.

(** One character of [repr(s)], given the quote that delimits it. *)
Definition repr_char (quote c : ascii) : string :=
  let n := code_point c in
  if Ascii.eqb c quote || Ascii.eqb c backslash
  then String backslash (String c EmptyString)
  else if (n =? 9)%nat then String backslash "t"
  else if (n =? 10)%nat then String backslash "n"
  else if (n =? 13)%nat then String backslash "r"
  else if ((n <? 32) || (n =? 127))%nat then String backslash ("x" ++ hex2 n)
  else if (n <? 127)%nat then String c EmptyString
  else if (((128 <=? n) && (n <=? 160)) || (n =? 173))%nat
  then String backslash ("x" ++ hex2 n)
  else String c EmptyString.

Fixpoint repr_chars (quote : ascii) (s : string) : string :=
  match s with
  | EmptyString => EmptyString
  | String c s' => repr_char quote c ++ repr_chars quote s'
  end.

(** [repr(s)] for a str: single quotes unless the text holds a single quote
    and no double quote. *)
Definition repr_str (s : string) : string :=
  let quote :=
    if any_char (Ascii.eqb single_quote) s
       && negb (any_char (Ascii.eqb double_quote) s)
    then double_quote else single_quote in
  String quote (repr_chars quote s ++ String quote EmptyString).

(** [repr(v)] *)
Fixpoint py_repr (v : value) : string :=
  match v with
  | VNone => "None"
  | VBool true => "True"
  | VBool false => "False"
  | VInt n => str_of_int n
  | VFloat r => r
  | VStr s => repr_str s
  | VList xs => "[" ++ join ", " (map py_repr xs) ++ "]"
  | VTuple [x] => "(" ++ py_repr x ++ ",)"
  | VTuple xs => "(" ++ join ", " (map py_repr xs) ++ ")"
  | VDict kvs =>
      "{" ++ join ", " (map (fun kv => repr_str (fst kv) ++ ": " ++ py_repr (snd kv)) kvs)
          ++ "}"
  end.

(** [str(v)] *)
Definition py_str (v : value) : string :=
  match v with
  | VStr s => s
  | _ => py_repr v
  end.

(** Truth value of a value: [if v:] *)
Definition py_bool (v : value) : bool :=
  match v with
  | VNone => false
  | VBool b => b
  | VInt n => negb (n =? 0)%Z
  | VFloat r => negb (String.eqb r "0.0" || String.eqb r "-0.0")
  | VStr s => nonempty s
  | VList xs | VTuple xs => match xs with [] => false | _ => true end
  | VDict kvs => match kvs with [] => false | _ => true end
  end.

(** [isinstance(v, (list, tuple))] *)
Definition is_list_or_tuple (v : value) : bool :=
  match v with
  | VList _ | VTuple _ => true
  | _ => false
  end.


(** [len(v)] of a list or a tuple (the program calls it on nothing else). *)
Definition seq_len (v : value) : nat :=
  match v with
  | VList xs | VTuple xs => List.length xs
  | _ => 0
  end.

(** Lookup in a dict: the first binding of the key. *)
Fixpoint dict_lookup (key : string) (kvs : list (string * value)) : option value :=
  match kvs with
  | [] => None
  | (k, v) :: rest => if String.eqb key k then Some v else dict_lookup key rest
  end.

(** ** Exceptions and code that can raise *)

(** An instance of [Exception]: its class and the text [str(e)] gives. *)
Inductive exn : Type :=
| Exn (cls : string) (msg : string).

Definition exn_str (e : exn) : string :=
  match e with Exn _ msg => msg end.

Definition IndexError (what : string) : exn :=
  Exn "IndexError" (what ++ " index out of range").
Definition TypeError (msg : string) : exn := Exn "TypeError" msg.
Definition KeyError (key : string) : exn := Exn "KeyError" key.
Definition AttributeError (msg : string) : exn := Exn "AttributeError" msg.

(** The outcome of an expression or a block: a value, or a raised exception. *)
Inductive res (A : Type) : Type :=
| Ok (a : A)
| Raise (e : exn).
Arguments Ok {A} a.
Arguments Raise {A} e.

Definition res_bind {A B : Type} (r : res A) (k : A -> res B) : res B :=
  match r with
  | Ok a => k a
  | Raise e => Raise e
  end.

(** [try: body / except ...: handler] in pure code. *)
Definition res_try {A : Type} (body : res A) (handler : exn -> res A) : res A :=
  match body with
  | Ok a => Ok a
  | Raise e => handler e
  end.

Definition is_ok {A : Type} (r : res A) : bool :=
  match r with Ok _ => true | Raise _ => false end.

Declare Scope res_scope.
Delimit Scope res_scope with res.
Notation "x <- r ;; k" := (res_bind r (fun x => k))
  (at level 61, r at next level, right associativity) : res_scope.

(** [for x in xs: acc = body(acc, x)], stopping at the first exception. *)
Fixpoint for_each {A S : Type} (xs : list A) (body : S -> A -> res S) (acc : S)
  : res S :=
  match xs with
  | [] => Ok acc
  | x :: rest =>
      match body acc x with
      | Ok acc' => for_each rest body acc'
      | Raise e => Raise e
      end
  end.

(** ** Operations on values that can raise *)

(** [v[i]] for a constant index [i >= 0].  A dict has string keys only, so
    an integer key is never among them. *)
Definition subscript (v : value) (i : nat) : res value :=
  match v with
  | VList xs =>
      match nth_error xs i with
      | Some x => Ok x
      | None => Raise (IndexError "list")
      end
  | VTuple xs =>
      match nth_error xs i with
      | Some x => Ok x
      | None => Raise (IndexError "tuple")
      end
  | VStr s =>
      match String.get i s with
      | Some c => Ok (VStr (String c EmptyString))
      | None => Raise (IndexError "string")
      end
  | VDict _ => Raise (KeyError (str_of_int (Z.of_nat i)))
  | _ => Raise (TypeError ("'" ++ type_name v ++ "' object is not subscriptable"))
  end.

(** The elements [for x in v] visits: the items of a list or tuple, the
    characters of a str, the keys of a dict; nothing else is iterable. *)
Definition py_iter (v : value) : res (list value) :=
  match v with
  | VList xs | VTuple xs => Ok xs
  | VStr s => Ok (map (fun c => VStr (String c EmptyString)) (list_ascii_of_string s))
  | VDict kvs => Ok (map (fun kv => VStr (fst kv)) kvs)
  | _ => Raise (TypeError ("'" ++ type_name v ++ "' object is not iterable"))
  end.

(** [v.get(key, default)]: a dict method; any other value has no [get]. *)
Definition get_method (v : value) (key : string) (default : value) : res value :=
  match v with
  | VDict kvs =>
      match dict_lookup key kvs with
      | Some x => Ok x
      | None => Ok default
      end
  | _ => Raise (AttributeError ("'" ++ type_name v ++ "' object has no attribute 'get'"))
  end.

(** ** parse_paddle_result (lines 89-136) *)

(** [if t and str(t).strip(): lines.append(str(t).strip())] *)
Definition append_text (lines : list string) (t : value) : list string :=
  if py_bool t && nonempty (strip (py_str t))
  then (lines ++ [strip (py_str t)])%list
  else lines.

(** The body of [for item in block] (lines 112-124). *)
Definition item_step (lines : list string) (item : value) : res (list string) :=
  res_try
    (i1 <- subscript item 1 ;;
     text <- (if is_list_or_tuple i1 then subscript i1 0 else Ok i1) ;;
     Ok (append_text lines text))%res
    (fun _ =>
       res_try
         (if is_list_or_tuple item && (2 <=? seq_len item)%nat
          then (i0 <- subscript item 0 ;; Ok (lines ++ [py_str i0])%list)%res
          else Ok lines)
         (fun _ => Ok lines)).

(** The body of [for block in raw] (lines 100-132). *)
Definition block_step (lines : list string) (block : value) : res (list string) :=
  match block with
  | VDict kvs =>
      match dict_lookup "rec_texts" kvs with
      | Some texts =>
          (ts <- py_iter texts ;;
           for_each ts (fun lines t => Ok (append_text lines t)) lines)%res
      | None => Ok lines
      end
  | VList items => for_each items item_step lines
  | _ =>
      res_try
        (let txt := py_str block in
         if nonempty (strip txt) then Ok (lines ++ [strip txt])%list else Ok lines)
        (fun _ => Ok lines)
  end.

(** The [try] block of lines 97-133. *)
Definition parse_body (raw : value) : res (list string) :=
  match raw with
  | VList blocks => for_each blocks block_step []
  | _ => Ok []
  end.

Definition parse_paddle_result (raw : value) : res (list string) :=
  match raw with
  | VNone => Ok []
  | _ => res_try (parse_body raw) (fun _ => Ok [py_str raw])
  end.

(** ** The world: disk, conversation history and the calls made *)

(** What [safe_call_ocr] is given as [img_arg]: a pixel array (rows of
    pixels of channels) or the path of an image file. *)
Inductive ocr_input : Type :=
| ImgArray (pixels : list (list (list Z)))
| ImgPath (path : string).

(** The arguments of [requests.post]. *)
Record request : Type := mk_request {
  req_url : string;
  req_json : value;
  req_timeout : Z
}.

(** What the program reads of an HTTP response: [status_code], [text] and
    the outcome of [json()]. *)
Record response : Type := mk_response {
  resp_status : Z;
  resp_text : string;
  resp_json : res value
}.

(** One entry of [st.session_state["messages"]]. *)
Record message : Type := mk_message {
  role : string;
  content : value
}.

(** A call to a collaborator, as the event log records it. *)
Inductive event : Type :=
| CallOcr (a : ocr_input) (ok : bool)
| CallPredict (a : ocr_input) (ok : bool)
| TempFile (path : string)
| SaveImage (path : string) (ok : bool)
| OsRemove (path : string) (ok : bool)
| HttpPost (r : request)
| EvalCall (source : string)
| Rerun.

Record world : Type := mk_world {
  disk : list string;
  messages : list message;
  log : list event
}.

Definition record_event (e : event) (w : world) : world :=
  mk_world (disk w) (messages w) (log w ++ [e])%list.

(** The OCR engine: [model.ocr], and [model.predict] when the engine has
    the attribute.  An outcome may depend on everything that happened so far. *)
Record engine : Type := mk_engine {
  ocr : world -> ocr_input -> res value;
  predict : option (world -> ocr_input -> res value)
}.

(** The other collaborators: [tempfile.NamedTemporaryFile] (the name of the
    file it creates), [Image.fromarray(img).save(path)], [os.remove],
    [requests.post] and the builtin [eval]. *)
Record host : Type := mk_host {
  new_temp_file : world -> res string;
  image_save : world -> ocr_input -> string -> res unit;
  remove_file : world -> string -> res unit;
  post : world -> request -> res response;
  eval_source : world -> string -> res value
}.

(** Code with effects: from a world to an outcome and the world after. *)
Definition M (A : Type) : Type := world -> res A * world.

Definition ret {A : Type} (a : A) : M A := fun w => (Ok a, w).

Definition bind {A B : Type} (m : M A) (k : A -> M B) : M B :=
  fun w =>
    match m w with
    | (Ok a, w') => k a w'
    | (Raise e, w') => (Raise e, w')
    end.

(** [try: body / except Exception as e: handler e] *)
Definition try_except {A : Type} (body : M A) (handler : exn -> M A) : M A :=
  fun w =>
    match body w with
    | (Ok a, w') => (Ok a, w')
    | (Raise e, w') => handler e w'
    end.

(** [try: body / finally: cleanup]: the cleanup runs on every exit of the
    body; an exception of the cleanup replaces the body's outcome. *)
Definition try_finally {A : Type} (body : M A) (cleanup : M unit) : M A :=
  fun w =>
    match body w with
    | (r, w') =>
        match cleanup w' with
        | (Ok _, w'') => (r, w'')
        | (Raise e, w'') => (Raise e, w'')
        end
    end.

(** An outcome of pure code, inside code with effects. *)
Definition lift {A : Type} (r : res A) : M A := fun w => (r, w).

Declare Scope M_scope.
Delimit Scope M_scope with M.
Notation "x <- m ;; k" := (bind m (fun x => k))
  (at level 61, m at next level, right associativity) : M_scope.
Notation "m ;;; k" := (bind m (fun _ => k))
  (at level 61, right associativity) : M_scope.

(** [model.ocr(a)] *)
Definition call_ocr (model : engine) (a : ocr_input) : M value :=
  fun w =>
    let r := ocr model w a in
    (r, record_event (CallOcr a (is_ok r)) w).

(** [model.predict(a)], for an engine whose [predict] is [f]. *)
Definition call_predict (f : world -> ocr_input -> res value) (a : ocr_input) : M value :=
  fun w =>
    let r := f w a in
    (r, record_event (CallPredict a (is_ok r)) w).

(** [tempfile.NamedTemporaryFile(delete=False, suffix=".png")]: on success
    the file exists on disk, and stays there when it is closed. *)
Definition named_temporary_file (h : host) : M string :=
  fun w =>
    match new_temp_file h w with
    | Ok p => (Ok p, mk_world (p :: disk w) (messages w) (log w ++ [TempFile p])%list)
    | Raise e => (Raise e, w)
    end.

(** [Image.fromarray(img).save(path)] *)
Definition save_image (h : host) (img : ocr_input) (path : string) : M unit :=
  fun w =>
    let r := image_save h w img path in
    (r, record_event (SaveImage path (is_ok r)) w).

Definition remove_path (path : string) (files : list string) : list string :=
  filter (fun f => negb (String.eqb f path)) files.

(** [os.remove(path)]: on success the file is gone from disk. *)
Definition os_remove (h : host) (path : string) : M unit :=
  fun w =>
    match remove_file h w path with
    | Ok _ =>
        (Ok tt, mk_world (remove_path path (disk w)) (messages w)
                         (log w ++ [OsRemove path true])%list)
    | Raise e => (Raise e, record_event (OsRemove path false) w)
    end.

(** ** safe_call_ocr (lines 48-87) *)

(** What [safe_call_ocr] returns: the triple of a [return] statement, or
    Python's [None] when control reaches the end of the function body. *)
Inductive returned : Type :=
| Triple (result : value) (method : string) (err : option (list exn))
| ReturnsNone.

Definition safe_call_ocr (h : host) (model : engine) (img_arg : ocr_input) (is_path : bool)
  : M returned :=
  try_except
    (res <- (if is_path then call_ocr model img_arg else call_ocr model img_arg) ;;
     ret (Triple res "ocr(img)" None))%M
    (fun e1 =>
       try_except
         (match predict model with
          | Some f =>
              (res <- call_predict f img_arg ;;
               ret (Triple res "predict(img)" None))%M
          | None => ret ReturnsNone
          end)
         (fun e2 =>
            if negb is_path then
              try_except
                (tmp_path <- (tmp_path <- named_temporary_file h ;;
                              save_image h img_arg tmp_path ;;;
                              ret tmp_path) ;;
                 try_finally
                   (res <- call_ocr model (ImgPath tmp_path) ;;
                    ret (Triple res "ocr(path)" None))
                   (try_except (os_remove h tmp_path) (fun _ => ret tt)))%M
                (fun e3 => ret (Triple VNone "failed_all" (Some [e1; e2; e3])))
            else ret (Triple VNone "failed_all" (Some [e1; e2])))).

(** ** The Extract Text button (lines 142-165) *)

Definition raise {A : Type} (e : exn) : M A := fun w => (Raise e, w).

Definition append_message (m : message) : M unit :=
  fun w => (Ok tt, mk_world (disk w) (messages w ++ [m])%list (log w)).

Definition newline : string := String (ascii_of_nat 10) EmptyString.

(** The body of [if st.button("Extract Text")]; what it shows on the page
    ([st.error], [st.write], [st.text_area], [st.warning]) is left out.
    Unpacking [None] into three names raises a [TypeError]. *)
Definition extract_text_clicked (h : host) (model : engine) (img_np : ocr_input)
  : M unit :=
  (r <- safe_call_ocr h model img_np false ;;
   match r with
   | ReturnsNone => raise (TypeError "cannot unpack non-iterable NoneType object")
   | Triple VNone _ _ => ret tt
   | Triple result _ _ =>
       texts <- lift (parse_paddle_result result) ;;
       match texts with
       | _ :: _ =>
           let out := join newline texts in
           append_message (mk_message "assistant" (VStr ("OCR Result:" ++ newline ++ out)))
       | [] =>
           append_message (mk_message "assistant" (VStr "OCR Result: [no readable text]"))
       end
   end)%M.

(** ** The file uploader (lines 36-43) *)

(** The body of [if uploaded_file:], given the outcome of
    [uploaded_file.read().decode("utf-8")]; what it shows on the page
    ([st.text_area], [st.error]) is left out.  [content[:500]] is the first
    500 characters of the text, or all of it when it is shorter. *)
Definition file_uploaded (decoded : res string) : M unit :=
  try_except
    (content <- lift decoded ;;
     let preview := substring 0 500 content in
     append_message
       (mk_message "assistant"
          (VStr ("File uploaded. Preview:" ++ newline ++ preview ++ "..."))))%M
    (fun e => ret tt).

(** ** The canned-response table (lines 167-176) *)

(** [datetime.now()] formatted with ["%H:%M:%S"] and with ["%Y-%m-%d"], as
    read when the table is built. *)
Record clock : Type := mk_clock {
  time_hms : string;
  date_ymd : string
}.

(** The dict [responses], in the order its keys are written: a dict is
    iterated in insertion order. *)
Definition responses (now : clock) : list (string * string) :=
  [ ("hello", "Hello! How can I assist you?");
    ("hi", "Hi there! What can I do for you?");
    ("how are you", "I'm just a program, but I'm doing great!");
    ("your name", "I'm Gemma 3 Chatbot, created using Streamlit!");
    ("time", "The current time is " ++ time_hms now ++ ".");
    ("date", "Today's date is " ++ date_ymd now ++ ".");
    ("bye", "Goodbye! Have a nice day.");
    ("thanks", "You're welcome!") ].

(** ** ask_ollama (lines 186-197) *)

Definition ollama_request (prompt : string) : request :=
  mk_request "http://127.0.0.1:11434/api/generate"
    (VDict [ ("model", VStr "gemma3:latest");
             ("prompt", VStr prompt);
             ("stream", VBool false) ])
    120.

(** [requests.post(url, json=..., timeout=...)] *)
Definition requests_post (h : host) (r : request) : M response :=
  fun w => (post h w r, record_event (HttpPost r) w).

Definition ask_ollama (h : host) (prompt : string) : M value :=
  try_except
    (response <- requests_post h (ollama_request prompt) ;;
     if (resp_status response =? 200)%Z then
       body <- lift (resp_json response) ;;
       lift (get_method body "response" (VStr ""))
     else
       ret (VStr ("Error: " ++ str_of_int (resp_status response) ++ " "
                    ++ resp_text response)))%M
    (fun e => ret (VStr ("Ollama error: " ++ exn_str e))).

(** ** The Send button (lines 199-216) *)

(** [for k, v in responses.items(): if k in text: reply = v; break], with
    [reply = None] before the loop. *)
Fixpoint first_match (items : list (string * string)) (text : string)
  : option string :=
  match items with
  | [] => None
  | (k, v) :: rest => if contains k text then Some v else first_match rest text
  end.

(** [eval(source)] *)
Definition call_eval (h : host) (source : string) : M value :=
  fun w => (eval_source h w source, record_event (EvalCall source) w).

(** [st.rerun()] *)
Definition st_rerun : M unit := fun w => (Ok tt, record_event Rerun w).

(** Lines 208-214: the reply when no keyword of the table matched. *)
Definition other_reply (h : host) (user_input text : string) : M value :=
  (reply <- (if any_char isdigit text
             then try_except
                    (v <- call_eval h user_input ;; ret (Some (VStr (py_str v))))
                    (fun _ => ret (Some (VStr "Couldn't evaluate expression.")))
             else ret None) ;;
   match reply with
   | None => ask_ollama h user_input
   | Some r => ret r
   end)%M.

(** The body of [if st.button("Send")]. *)
Definition send_clicked (h : host) (now : clock) (user_input : string) : M unit :=
  if nonempty (strip user_input) then
    (append_message (mk_message "user" (VStr user_input)) ;;;
     let text := strip (lower user_input) in
     reply <- match first_match (responses now) text with
              | Some v => ret (VStr v)
              | None => other_reply h user_input text
              end ;;
     append_message (mk_message "assistant" reply) ;;;
     st_rerun)%M
  else ret tt.

(** ** Reference inputs *)

(** The bounding box [[0,0],[1,0],[1,1],[0,1]]. *)
Definition unit_box : value :=
  VList [ VList [VInt 0; VInt 0]; VList [VInt 1; VInt 0];
          VList [VInt 1; VInt 1]; VList [VInt 0; VInt 1] ].

(** One recognised line, [box, ("Hello", 0.98)]. *)
Definition hello_entry : value :=
  VList [ unit_box; VTuple [VStr "Hello"; VFloat "0.98"] ].

(** [{"rec_texts": ["A", "", "  B  "]}] *)
Definition rec_texts_block : value :=
  VDict [ ("rec_texts", VList [VStr "A"; VStr ""; VStr "  B  "]) ].

Definition empty_world : world := mk_world [] [] [].

Definition a_pixel_array : ocr_input := ImgArray [[[255; 255; 255]%Z]].

Definition boom (msg : string) : exn := Exn "RuntimeError" msg.

(** A host on which every collaborator works: temporary files get the name
    [/tmp/tmpocr.png], the completion service answers 200 with the JSON
    object [{"response": "ok"}], and [eval] returns 4. *)
Definition working_host : host :=
  mk_host (fun _ => Ok "/tmp/tmpocr.png")
          (fun _ _ _ => Ok tt)
          (fun _ _ => Ok tt)
          (fun _ _ => Ok (mk_response 200 "{}" (Ok (VDict [("response", VStr "ok")]))))
          (fun _ _ => Ok (VInt 4)).

(** A host that differs from [working_host] in that writing the image to
    the temporary file fails. *)
Definition unwritable_host : host :=
  mk_host (fun _ => Ok "/tmp/tmpocr.png")
          (fun _ _ _ => Raise (boom "cannot write image"))
          (fun _ _ => Ok tt)
          (fun _ _ => Ok (mk_response 200 "{}" (Ok (VDict [("response", VStr "ok")]))))
          (fun _ _ => Ok (VInt 4)).

(** A host whose completion service is unreachable. *)
Definition offline_host : host :=
  mk_host (fun _ => Ok "/tmp/tmpocr.png")
          (fun _ _ _ => Ok tt)
          (fun _ _ => Ok tt)
          (fun _ _ => Raise (Exn "ConnectionError" "connection refused"))
          (fun _ _ => Ok (VInt 4)).

(** A host whose completion service answers 404 with the body "not found". *)
Definition missing_model_host : host :=
  mk_host (fun _ => Ok "/tmp/tmpocr.png")
          (fun _ _ _ => Ok tt)
          (fun _ _ => Ok tt)
          (fun _ _ => Ok (mk_response 404 "not found" (Raise (Exn "JSONDecodeError" "Expecting value"))))
          (fun _ _ => Ok (VInt 4)).

(** An engine of an older version: [ocr] raises and there is no [predict]. *)
Definition old_failing_engine : engine :=
  mk_engine (fun _ _ => Raise (boom "ocr failed")) None.

Definition failing_predict (w : world) (a : ocr_input) : res value :=
  Raise (boom "predict failed").

(** An engine whose two entry points both raise. *)
Definition failing_engine : engine :=
  mk_engine (fun _ _ => Raise (boom "ocr failed")) (Some failing_predict).

(** An engine whose [ocr] returns [None] without raising. *)
Definition none_engine : engine :=
  mk_engine (fun _ _ => Ok VNone) None.

(** An engine whose [ocr] recognises one line. *)
Definition hello_engine : engine :=
  mk_engine (fun _ _ => Ok (VList [VList [hello_entry]])) None.

(** ** Notions used in the statements *)

(** The property that exactly one of "the result is not None" and "the
    strategy is failed_all" holds of what [safe_call_ocr] returned. *)
Definition exactly_one_holds (r : returned) : Prop :=
  match r with
  | Triple result method _ =>
      (result <> VNone /\ method <> "failed_all")
      \/ (result = VNone /\ method = "failed_all")
  | ReturnsNone => False
  end.

(** A line of text as the normalizer promises it: not empty, and with no
    whitespace at either end. *)
Definition clean_line (s : string) : Prop :=
  s <> EmptyString /\ strip s = s.





Definition engine_call (e : event) : bool :=
  match e with
  | CallOcr _ _ | CallPredict _ _ => true
  | _ => false
  end.





(** A blank string: empty after [strip]. *)
Definition nonblank (s : string) : bool := nonempty (strip s).

(** The lines a list of recognised texts should give: the texts that are
    not blank, trimmed, in their order. *)
Definition trimmed_texts (texts : list string) : list string :=
  map strip (filter nonblank texts).

(** An entry of the first dialect, [box, (text, score)]. *)
Definition entry_value (e : value * string * value) : value :=
  match e with
  | (box, text, score) => VList [box; VTuple [VStr text; score]]
  end.

Definition entry_text (e : value * string * value) : string :=
  match e with
  | (_, text, _) => text
  end.

(** A block record of the second dialect whose ["rec_texts"] key holds the
    list of strings [texts]. *)
Definition holds_rec_texts (block : value) (texts : list string) : Prop :=
  exists kvs,
    block = VDict kvs
    /\ dict_lookup "rec_texts" kvs = Some (VList (map VStr texts)).


(** ** Proof automation *)

Ltac run_M :=
  unfold safe_call_ocr, try_except, try_finally, bind, ret, lift, raise,
    call_ocr, call_predict, named_temporary_file, save_image, os_remove,
    record_event;
  cbv zeta.

Ltac case_on_outcomes :=
  repeat match goal with
    | |- context [match ?x with Ok _ => _ | Raise _ => _ end] =>
        destruct x eqn:?; cbn [is_ok fst snd disk messages log]
    | |- context [match ?x with Some _ => _ | None => _ end] =>
        destruct x eqn:?; cbn [is_ok fst snd disk messages log]
    | |- context [if ?b then _ else _] =>
        destruct b eqn:?; cbn [is_ok fst snd disk messages log negb]
    end.

Ltac run_ollama :=
  unfold ask_ollama, requests_post, try_except, bind, ret, lift, record_event;
  cbv zeta.

(* ===================================================================== *)
(** * Part II: properties *)
(* ===================================================================== *)

(** ** Strings *)

Lemma prefix_iff (k text : string) :
  prefix k text = true <-> exists post, text = k ++ post.
Proof.
  revert text. induction k as [|c k IH]; intros text.
  - split; [intros _; exists text; reflexivity | intros _; destruct text; reflexivity].
  - destruct text as [|d text]; simpl.
    + split; [discriminate | intros [post H]; discriminate].
    + destruct (Ascii.ascii_dec c d) as [->|Hne].
      * rewrite IH. split; intros [post H]; exists post.
        -- now rewrite H.
        -- now inversion H.
      * split; [discriminate | intros [post H]; inversion H; congruence].
Qed.

Lemma contains_iff (k text : string) :
  contains k text = true <-> exists pre post, text = pre ++ k ++ post.
Proof.
  induction text as [|d text IH].
  - change (contains k EmptyString) with (prefix k EmptyString || false).
    rewrite orb_false_r, prefix_iff. split.
    + intros [post H]. exists EmptyString, post. exact H.
    + intros [pre [post H]]. destruct pre; simpl in H.
      * exists post. exact H.
      * discriminate.
  - change (contains k (String d text))
      with (prefix k (String d text) || contains k text).
    rewrite orb_true_iff, prefix_iff, IH. split.
    + intros [[post H] | [pre [post H]]].
      * exists EmptyString, post. exact H.
      * exists (String d pre), post. simpl. now rewrite H.
    + intros [pre [post H]]. destruct pre as [|c pre]; simpl in H.
      * left. exists post. exact H.
      * right. inversion H. exists pre, post. reflexivity.
Qed.

Lemma lstrip_blank (s : string) :
  all_chars isspace s = true -> lstrip s = EmptyString.
Proof.
  induction s as [|c s IH]; simpl; [reflexivity|].
  intros H. apply andb_true_iff in H as [Hc Hs]. rewrite Hc. auto.
Qed.

Lemma rstrip_empty_blank (s : string) :
  rstrip s = EmptyString -> all_chars isspace s = true.
Proof.
  induction s as [|c s IH]; simpl; [reflexivity|].
  destruct (rstrip s) eqn:E; [|discriminate].
  destruct (isspace c); [auto | discriminate].
Qed.

Lemma lstrip_blank_inv (s : string) :
  all_chars isspace (lstrip s) = true -> all_chars isspace s = true.
Proof.
  induction s as [|c s IH]; simpl; [reflexivity|].
  destruct (isspace c) eqn:E; simpl; [auto|].
  rewrite E. discriminate.
Qed.

(** A string is empty or whitespace-only exactly when [strip] empties it. *)
Lemma strip_blank_iff (s : string) :
  all_chars isspace s = true <-> strip s = EmptyString.
Proof.
  unfold strip. split.
  - intros H. now rewrite (lstrip_blank s H).
  - intros H. apply lstrip_blank_inv, rstrip_empty_blank, H.
Qed.








(** ** parse_paddle_result *)

Lemma for_each_app {A S : Type} (xs ys : list A) (body : S -> A -> res S) (acc : S) :
  for_each (xs ++ ys)%list body acc
  = res_bind (for_each xs body acc) (for_each ys body).
Proof.
  revert acc. induction xs as [|x xs IH]; intros acc; simpl; [reflexivity|].
  destruct (body acc x); simpl; auto.
Qed.


Lemma for_each_total {A S : Type} (xs : list A) (body : S -> A -> res S) :
  (forall acc x, exists acc', body acc x = Ok acc') ->
  forall acc, exists acc', for_each xs body acc = Ok acc'.
Proof.
  intros Hbody. induction xs as [|x xs IH]; intros acc; simpl; [eauto|].
  destruct (Hbody acc x) as [acc' ->]. apply IH.
Qed.



Lemma item_step_total (lines : list string) (item : value) :
  exists lines', item_step lines item = Ok lines'.
Proof.
  unfold item_step, res_try.
  match goal with |- context [match ?b with Ok _ => _ | Raise _ => _ end] =>
    destruct b; [eauto|] end.
  destruct (is_list_or_tuple item && (2 <=? seq_len item)%nat); [|eauto].
  destruct (subscript item 0); simpl; eauto.
Qed.












(** C3 (the code departs from the claim): an element whose second component
    is an empty sequence takes the fallback of line 122, which appends
    [str(item[0])] as it is.  The raw result [[["", []]]] normalizes to [""],
    and [[["  B  ", ()]]] to ["  B  "]: an empty line and an untrimmed one. *)
Theorem fallback_appends_unfiltered_text :
  parse_paddle_result (VList [VList [VList [VStr ""; VList []]]]) = Ok [""]
  /\ parse_paddle_result (VList [VList [VTuple [VStr "  B  "; VTuple []]]])
     = Ok ["  B  "]
  /\ ~ clean_line "" /\ ~ clean_line "  B  ".
Proof.
  repeat split; try reflexivity.
  - intros [H _]. now apply H.
  - intros [_ H]. discriminate H.
Qed.



(** ** safe_call_ocr *)



(** C1 (as stated): for an engine whose [ocr] returns None without raising,
    the returned triple is (None, "ocr(img)", None): the result is None and
    the strategy is not "failed_all", so neither of the two holds. *)
Lemma none_result_is_not_failed_all :
  safe_call_ocr working_host none_engine a_pixel_array false empty_world
  = (Ok (Triple VNone "ocr(img)" None),
     mk_world [] [] [CallOcr a_pixel_array true])
  /\ ~ exactly_one_holds (Triple VNone "ocr(img)" None).
Proof.
  split; [reflexivity|].
  intros [[H _] | [_ H]]; [now apply H | discriminate H].
Qed.

(** C1 (amended): for every engine whose calls, when they succeed, return a
    result that is not None, and every image argument and is_path flag,
    [safe_call_ocr] does not raise, and whenever it returns a triple exactly
    one of "the result is not None" and "the strategy is failed_all" holds;
    it returns a triple at least whenever the engine has [predict] or the
    primary call succeeds. *)
Theorem safe_call_ocr_exactly_one :
  forall h model img is_path w,
    (forall w0 a v, ocr model w0 a = Ok v -> v <> VNone) ->
    (forall f w0 a v, predict model = Some f -> f w0 a = Ok v -> v <> VNone) ->
    exists r w',
      safe_call_ocr h model img is_path w = (Ok r, w')
      /\ (r = ReturnsNone \/ exactly_one_holds r)
      /\ (predict model <> None \/ is_ok (ocr model w img) = true ->
          r <> ReturnsNone).
Proof.
  intros h model img is_path w Hocr_some Hpredict_some. run_M.
  destruct (ocr model w img) as [v|e1] eqn:Hocr.
  - exists (Triple v "ocr(img)" None).
    destruct is_path; rewrite Hocr; cbn [is_ok]; eexists;
      (split; [reflexivity|]);
      (split; [right; left; split; [eapply Hocr_some; eauto | discriminate]
              | discriminate]).
  - destruct (predict model) as [f|] eqn:Hpredict.
    + destruct is_path; rewrite Hocr; cbn [is_ok negb];
        case_on_outcomes; do 2 eexists;
        (split; [reflexivity|]);
        (split; [right | discriminate]);
        first [ right; split; reflexivity
              | left; split; [|discriminate];
                first [ eapply Hocr_some; eassumption
                      | eapply Hpredict_some; [reflexivity | eassumption] ] ].
    + destruct is_path; rewrite Hocr; cbn [is_ok negb];
        do 2 eexists;
        (split; [reflexivity|]);
        (split; [left; reflexivity|]);
        (intros [H | H]; [now contradiction H | discriminate H]).
Qed.

Lemma safe_call_ocr_exactly_one_witness :
  exists r w',
    safe_call_ocr working_host hello_engine a_pixel_array false empty_world = (Ok r, w')
    /\ (r = ReturnsNone \/ exactly_one_holds r)
    /\ (predict hello_engine <> None
        \/ is_ok (ocr hello_engine empty_world a_pixel_array) = true ->
        r <> ReturnsNone).
Proof.
  apply (safe_call_ocr_exactly_one
           working_host hello_engine a_pixel_array false empty_world).
  - intros w0 a v H. inversion H. discriminate.
  - intros f w0 a v H. discriminate H.
Defined.

(** When the primary call raises and the engine has no [predict], control
    leaves the inner [try] without a [return] and reaches the end of the
    function: no triple is returned and no further strategy is tried. *)
Lemma safe_call_ocr_without_predict
      (h : host) (model : engine) (img : ocr_input) (is_path : bool) (w : world) (e1 : exn) :
  ocr model w img = Raise e1 ->
  predict model = None ->
  safe_call_ocr h model img is_path w
  = (Ok ReturnsNone, record_event (CallOcr img false) w).
Proof.
  intros Hocr Hpredict. run_M. rewrite Hpredict.
  destruct is_path; rewrite Hocr; reflexivity.
Qed.

(** C2 (the code departs from the claim): with an engine that has no
    [predict] and whose [ocr] raises, every attempt made has failed, yet
    [safe_call_ocr] returns None instead of (None, "failed_all", errors);
    the Extract Text handler then raises a TypeError when it unpacks it. *)
Theorem failed_primary_without_predict_returns_none :
  safe_call_ocr working_host old_failing_engine a_pixel_array false empty_world
  = (Ok ReturnsNone, mk_world [] [] [CallOcr a_pixel_array false])
  /\ fst (extract_text_clicked working_host old_failing_engine a_pixel_array
            empty_world)
     = Raise (TypeError "cannot unpack non-iterable NoneType object").
Proof. split; reflexivity. Qed.



(** C4 (the code departs from the claim): when writing the image into the
    temporary file raises, the file that [NamedTemporaryFile(delete=False)]
    created is still on disk when [safe_call_ocr] returns, and [os.remove]
    was never called: the [try/finally] that removes it starts only after
    the [with] block. *)
Theorem temp_file_left_when_save_fails :
  safe_call_ocr unwritable_host failing_engine a_pixel_array false empty_world
  = (Ok (Triple VNone "failed_all"
           (Some [boom "ocr failed"; boom "predict failed";
                  boom "cannot write image"])),
     mk_world ["/tmp/tmpocr.png"] []
       [ CallOcr a_pixel_array false; CallPredict a_pixel_array false;
         TempFile "/tmp/tmpocr.png"; SaveImage "/tmp/tmpocr.png" false ])
  /\ In "/tmp/tmpocr.png"
        (disk (snd (safe_call_ocr unwritable_host failing_engine a_pixel_array
                      false empty_world))).
Proof. split; [reflexivity | left; reflexivity]. Qed.

Lemma remove_path_gone (p : string) (files : list string) :
  ~ In p (remove_path p files).
Proof.
  unfold remove_path. intros H. apply filter_In in H as [_ H].
  rewrite String.eqb_refl in H. discriminate H.
Qed.

(** Extra (safe_call_ocr): when the primary call and [predict] raise, the
    input is an array, and the temporary file is created and written, the
    primary entry point is called with the file's path and [os.remove] is
    called on it right after, whether that call returned or raised; a
    failing [os.remove] raises nothing, and after a successful one the file
    is not on disk. *)
Theorem temp_file_removed_after_retry :
  forall h model f img w e1 e2 p,
    let w1 := record_event (CallOcr img false) w in
    let w2 := record_event (CallPredict img false) w1 in
    let w3 := mk_world (p :: disk w2) (messages w2) (log w2 ++ [TempFile p])%list in
    ocr model w img = Raise e1 ->
    predict model = Some f ->
    f w1 img = Raise e2 ->
    new_temp_file h w2 = Ok p ->
    image_save h w3 img p = Ok tt ->
    exists r w' called removed,
      safe_call_ocr h model img false w = (Ok r, w')
      /\ log w' = (log w ++ [ CallOcr img false; CallPredict img false;
                              TempFile p; SaveImage p true;
                              CallOcr (ImgPath p) called; OsRemove p removed ])%list
      /\ (removed = true -> ~ In p (disk w'))
      /\ (called = true -> exists v, r = Triple v "ocr(path)" None)
      /\ (called = false ->
          exists e3, r = Triple VNone "failed_all" (Some [e1; e2; e3])).
Proof.
  intros h model f img w e1 e2 p w1 w2 w3 Hocr Hpredict Hf Htmp Hsave.
  subst w1 w2 w3. run_M. unfold record_event in *. cbn [disk messages log] in *.
  rewrite Hpredict, Hocr. cbn [is_ok].
  rewrite Hf. cbn [is_ok negb disk messages log].
  rewrite Htmp. cbn [is_ok disk messages log].
  rewrite Hsave. cbn [is_ok disk messages log].
  case_on_outcomes; do 4 eexists;
    (split; [reflexivity|]);
    (split; [cbn [log]; rewrite <- ?app_assoc; reflexivity|]);
    (split; [first [discriminate | intros _; apply remove_path_gone]|]);
    (split; [first [discriminate | eauto]|]);
    first [discriminate | eauto].
Qed.

Lemma temp_file_removed_after_retry_witness :
  exists r w' called removed,
    safe_call_ocr working_host failing_engine a_pixel_array false empty_world
    = (Ok r, w')
    /\ log w' = (log empty_world
                 ++ [ CallOcr a_pixel_array false; CallPredict a_pixel_array false;
                      TempFile "/tmp/tmpocr.png"; SaveImage "/tmp/tmpocr.png" true;
                      CallOcr (ImgPath "/tmp/tmpocr.png") called;
                      OsRemove "/tmp/tmpocr.png" removed ])%list
    /\ (removed = true -> ~ In "/tmp/tmpocr.png" (disk w'))
    /\ (called = true -> exists v, r = Triple v "ocr(path)" None)
    /\ (called = false ->
        exists e3, r = Triple VNone "failed_all"
                         (Some [boom "ocr failed"; boom "predict failed"; e3])).
Proof.
  exact (temp_file_removed_after_retry
           working_host failing_engine failing_predict
           a_pixel_array empty_world (boom "ocr failed") (boom "predict failed")
           "/tmp/tmpocr.png" eq_refl eq_refl eq_refl eq_refl eq_refl).
Defined.

(** ** ask_ollama *)

(** C8: [ask_ollama] never raises; when [requests.post] raises (a refused
    connection, or the timeout after the 120 it is called with) the reply is
    the text "Ollama error: " followed by the exception's message, and when
    the response has a status other than 200 the reply is the text
    "Error: <status> <body>"; the one request it sends carries timeout 120. *)
Theorem ask_ollama_turns_failures_into_replies :
  (forall h prompt w, exists reply w', ask_ollama h prompt w = (Ok reply, w'))
  /\ (forall h prompt w e,
         post h w (ollama_request prompt) = Raise e ->
         fst (ask_ollama h prompt w) = Ok (VStr ("Ollama error: " ++ exn_str e)))
  /\ (forall h prompt w r,
         post h w (ollama_request prompt) = Ok r ->
         resp_status r <> 200%Z ->
         fst (ask_ollama h prompt w)
         = Ok (VStr ("Error: " ++ str_of_int (resp_status r) ++ " " ++ resp_text r)))
  /\ (forall h prompt w,
         log (snd (ask_ollama h prompt w))
         = (log w ++ [HttpPost (ollama_request prompt)])%list)
  /\ (forall prompt, req_timeout (ollama_request prompt) = 120%Z).
Proof.
  split; [|split; [|split; [|split]]].
  - intros h prompt w. run_ollama.
    destruct (post h w (ollama_request prompt)) as [r|e]; [|eauto].
    destruct (resp_status r =? 200)%Z; [|eauto].
    destruct (resp_json r) as [body|e]; [|eauto].
    destruct (get_method body "response" (VStr "")); eauto.
  - intros h prompt w e H. run_ollama. now rewrite H.
  - intros h prompt w r H Hstatus. run_ollama. rewrite H.
    apply Z.eqb_neq in Hstatus. now rewrite Hstatus.
  - intros h prompt w. run_ollama.
    destruct (post h w (ollama_request prompt)) as [r|e]; [|reflexivity].
    destruct (resp_status r =? 200)%Z; [|reflexivity].
    destruct (resp_json r) as [body|e]; [|reflexivity].
    destruct (get_method body "response" (VStr "")); reflexivity.
  - reflexivity.
Qed.

Lemma ask_ollama_turns_failures_into_replies_witness :
  fst (ask_ollama offline_host "tell me a story" empty_world)
  = Ok (VStr "Ollama error: connection refused")
  /\ fst (ask_ollama missing_model_host "tell me a story" empty_world)
     = Ok (VStr "Error: 404 not found").
Proof.
  destruct ask_ollama_turns_failures_into_replies as (_ & Hraise & Hstatus & _ & _).
  split.
  - exact (Hraise offline_host "tell me a story" empty_world
             (Exn "ConnectionError" "connection refused") eq_refl).
  - refine (Hstatus missing_model_host "tell me a story" empty_world
              (mk_response 404 "not found"
                 (Raise (Exn "JSONDecodeError" "Expecting value"))) eq_refl _).
    discriminate.
Defined.

(** ** The canned-response table and the Send button *)

Lemma first_match_some (items : list (string * string)) (text v : string) :
  first_match items text = Some v <->
  exists pre k post,
    items = (pre ++ (k, v) :: post)%list
    /\ contains k text = true
    /\ Forall (fun kv => contains (fst kv) text = false) pre.
Proof.
  induction items as [|[k0 v0] items IH]; simpl.
  - split; [discriminate|]. intros (pre & k & post & H & _).
    destruct pre; discriminate H.
  - destruct (contains k0 text) eqn:E.
    + split.
      * intros H. inversion H; subst. exists [], k0, items. auto.
      * intros (pre & k & post & H & Hk & Hpre). destruct pre as [|[k1 v1] pre].
        -- simpl in H. inversion H; subst. reflexivity.
        -- simpl in H. inversion H; subst. inversion Hpre; subst.
           simpl in *. congruence.
    + rewrite IH. split.
      * intros (pre & k & post & H & Hk & Hpre).
        exists ((k0, v0) :: pre), k, post. subst.
        repeat split; [exact Hk | constructor; [exact E | exact Hpre]].
      * intros (pre & k & post & H & Hk & Hpre). destruct pre as [|[k1 v1] pre].
        -- simpl in H. inversion H; subst. congruence.
        -- simpl in H. inversion H; subst. inversion Hpre; subst.
           exists pre, k, post. auto.
Qed.

Lemma first_match_none (items : list (string * string)) (text : string) :
  first_match items text = None <->
  Forall (fun kv => contains (fst kv) text = false) items.
Proof.
  induction items as [|[k0 v0] items IH]; simpl.
  - split; auto.
  - destruct (contains k0 text) eqn:E.
    + split; [discriminate|]. intros H. inversion H; subst. simpl in *. congruence.
    + rewrite IH. split; [auto|]. intros H. now inversion H.
Qed.

(** C9: for every user input, with [text] its lowercased and trimmed form,
    a keyword matches when it occurs in [text] as a substring; the lookup
    yields the reply of the first keyword of the table, in the order the
    table is written, that matches; and when Send is clicked on a non-blank
    input, that reply is the one appended after the user's message, while an
    input that matches no keyword gets its reply from the other paths
    (lines 208-214). *)
Theorem canned_reply_first_match_wins :
  forall h now user_input w,
    let text := strip (lower user_input) in
    (forall k, contains k text = true <-> exists pre post, text = pre ++ k ++ post)
    /\ (forall v,
           first_match (responses now) text = Some v <->
           exists pre k post,
             responses now = (pre ++ (k, v) :: post)%list
             /\ contains k text = true
             /\ Forall (fun kv => contains (fst kv) text = false) pre)
    /\ (forall v,
           nonempty (strip user_input) = true ->
           first_match (responses now) text = Some v ->
           send_clicked h now user_input w
           = (Ok tt,
              mk_world (disk w)
                (messages w ++ [ mk_message "user" (VStr user_input);
                                 mk_message "assistant" (VStr v) ])%list
                (log w ++ [Rerun])%list))
    /\ (nonempty (strip user_input) = true ->
        Forall (fun kv => contains (fst kv) text = false) (responses now) ->
        send_clicked h now user_input w
        = (append_message (mk_message "user" (VStr user_input)) ;;;
           reply <- other_reply h user_input text ;;
           append_message (mk_message "assistant" reply) ;;;
           st_rerun)%M w).
Proof.
  intros h now user_input w text.
  split; [intros k; apply contains_iff|].
  split; [intros v; apply first_match_some|].
  split.
  - intros v Hne Hv. unfold send_clicked. rewrite Hne. fold text. rewrite Hv.
    unfold bind, append_message, ret, st_rerun, record_event.
    cbn [disk messages log]. now rewrite <- app_assoc.
  - intros Hne Hnone. apply first_match_none in Hnone.
    unfold send_clicked. rewrite Hne. fold text. now rewrite Hnone.
Qed.

Lemma canned_reply_first_match_wins_witness :
  first_match (responses (mk_clock "12:00:00" "2024-01-01"))
    (strip (lower "  Oh HELLO, hi!  "))
  = Some "Hello! How can I assist you?"
  /\ send_clicked working_host (mk_clock "12:00:00" "2024-01-01")
       "  Oh HELLO, hi!  " empty_world
     = (Ok tt,
        mk_world []
          [ mk_message "user" (VStr "  Oh HELLO, hi!  ");
            mk_message "assistant" (VStr "Hello! How can I assist you?") ]
          [Rerun]).
Proof.
  destruct (canned_reply_first_match_wins working_host
              (mk_clock "12:00:00" "2024-01-01") "  Oh HELLO, hi!  " empty_world)
    as (_ & Hfirst & Hsend & _).
  split.
  - apply Hfirst. exists [], "hello".
    eexists. split; [reflexivity|]. split; [reflexivity | constructor].
  - apply Hsend; reflexivity.
Defined.

(** C10: when Send is clicked on an input that is empty or holds only
    whitespace, the handler does nothing: the world after it is the world
    before it, so the conversation history has no new message and the log of
    calls has no new entry (no request to the completion service). *)
Theorem blank_input_changes_nothing :
  forall h now user_input w,
    all_chars isspace user_input = true ->
    send_clicked h now user_input w = (Ok tt, w)
    /\ messages (snd (send_clicked h now user_input w)) = messages w
    /\ log (snd (send_clicked h now user_input w)) = log w.
Proof.
  intros h now user_input w Hblank.
  apply strip_blank_iff in Hblank.
  assert (Hrun : send_clicked h now user_input w = (Ok tt, w))
    by (unfold send_clicked; rewrite Hblank; reflexivity).
  rewrite Hrun. auto.
Qed.

Lemma blank_input_changes_nothing_witness :
  send_clicked working_host (mk_clock "12:00:00" "2024-01-01") "   " empty_world
  = (Ok tt, empty_world)
  /\ messages (snd (send_clicked working_host (mk_clock "12:00:00" "2024-01-01")
                      "   " empty_world)) = messages empty_world
  /\ log (snd (send_clicked working_host (mk_clock "12:00:00" "2024-01-01")
                 "   " empty_world)) = log empty_world.
Proof.
  apply (blank_input_changes_nothing working_host
           (mk_clock "12:00:00" "2024-01-01") "   " empty_world).
  reflexivity.
Defined.

(* ===================================================================== *)
(** * Part III: further properties of the code *)
(* ===================================================================== *)

(** ** parse_paddle_result: lines are only appended, in order *)

Lemma append_text_prepend (lines : list string) (t : value) :
  append_text lines t = (lines ++ append_text [] t)%list.
Proof.
  unfold append_text.
  destruct (py_bool t && nonempty (strip (py_str t))); simpl;
    [reflexivity | now rewrite app_nil_r].
Qed.

Lemma for_each_prepend {A : Type} (body : list string -> A -> res (list string)) :
  (forall acc x,
      body acc x = res_bind (body [] x) (fun added => Ok (acc ++ added)%list)) ->
  forall xs acc,
    for_each xs body acc
    = res_bind (for_each xs body []) (fun added => Ok (acc ++ added)%list).
Proof.
  intros Hbody. induction xs as [|x xs IH]; intros acc; simpl.
  - now rewrite app_nil_r.
  - rewrite (Hbody acc x). destruct (body [] x) as [l1|e]; simpl; [|reflexivity].
    rewrite (IH (acc ++ l1)%list), (IH l1).
    destruct (for_each xs body []) as [l2|e]; simpl; [|reflexivity].
    now rewrite app_assoc.
Qed.

Lemma item_step_prepend (lines : list string) (item : value) :
  item_step lines item
  = res_bind (item_step [] item) (fun added => Ok (lines ++ added)%list).
Proof.
  unfold item_step, res_try.
  destruct (subscript item 1) as [i1|e1]; cbn [res_bind].
  - destruct (if is_list_or_tuple i1 then subscript i1 0 else Ok i1) as [text|e];
      cbn [res_bind].
    + now rewrite append_text_prepend.
    + destruct (is_list_or_tuple item && (2 <=? seq_len item)%nat);
        [|cbn; now rewrite app_nil_r].
      destruct (subscript item 0); cbn; [reflexivity | now rewrite app_nil_r].
  - destruct (is_list_or_tuple item && (2 <=? seq_len item)%nat);
      [|cbn; now rewrite app_nil_r].
    destruct (subscript item 0); cbn; [reflexivity | now rewrite app_nil_r].
Qed.

Lemma block_step_prepend (lines : list string) (block : value) :
  block_step lines block
  = res_bind (block_step [] block) (fun added => Ok (lines ++ added)%list).
Proof.
  assert (Hleaf : forall txt,
             res_try (if nonempty (strip txt)
                      then Ok (lines ++ [strip txt])%list else Ok lines)
                     (fun _ => Ok lines)
             = res_bind (res_try (if nonempty (strip txt)
                                  then Ok ([] ++ [strip txt])%list else Ok [])
                                 (fun _ => Ok []))
                        (fun added => Ok (lines ++ added)%list)).
  { intros txt. destruct (nonempty (strip txt)); cbn;
      [reflexivity | now rewrite app_nil_r]. }
  destruct block as [| | | | |items| |kvs];
    try (unfold block_step; cbv zeta; apply Hleaf).
  - cbn [block_step]. apply for_each_prepend. intros acc x. apply item_step_prepend.
  - cbn [block_step]. destruct (dict_lookup "rec_texts" kvs) as [texts|];
      [|cbn; now rewrite app_nil_r].
    destruct (py_iter texts) as [ts|e]; cbn [res_bind]; [|reflexivity].
    apply (for_each_prepend (fun lines0 t => Ok (append_text lines0 t))).
    intros acc x. cbn. now rewrite append_text_prepend.
Qed.

(** The walk over the blocks of a concatenation is the walk over the first
    part followed by the walk over the second: the lines of the second part
    come after those of the first, and an exception of either part is the
    exception of the whole. *)
Lemma parse_body_app (blocks1 blocks2 : list value) :
  parse_body (VList (blocks1 ++ blocks2))
  = (lines1 <- parse_body (VList blocks1) ;;
     lines2 <- parse_body (VList blocks2) ;;
     Ok (lines1 ++ lines2)%list)%res.
Proof.
  cbn [parse_body]. rewrite for_each_app.
  destruct (for_each blocks1 block_step []) as [lines1|e]; cbn [res_bind];
    [|reflexivity].
  apply for_each_prepend. intros acc x. apply block_step_prepend.
Qed.

(** Extra (parse_paddle_result): when the walk raises on neither of two
    lists of blocks, the result for their concatenation is the
    concatenation of their results. *)
Theorem parse_paddle_result_app
        (blocks1 blocks2 : list value) (lines1 lines2 : list string) :
  parse_body (VList blocks1) = Ok lines1 ->
  parse_body (VList blocks2) = Ok lines2 ->
  parse_paddle_result (VList blocks1) = Ok lines1
  /\ parse_paddle_result (VList blocks2) = Ok lines2
  /\ parse_paddle_result (VList (blocks1 ++ blocks2)) = Ok (lines1 ++ lines2)%list.
Proof.
  intros H1 H2. unfold parse_paddle_result.
  rewrite parse_body_app, H1, H2. auto.
Qed.

Lemma parse_paddle_result_app_witness :
  parse_paddle_result (VList [rec_texts_block]) = Ok ["A"; "B"]
  /\ parse_paddle_result (VList [VList [hello_entry]]) = Ok ["Hello"]
  /\ parse_paddle_result (VList ([rec_texts_block] ++ [VList [hello_entry]]))
     = Ok (["A"; "B"] ++ ["Hello"])%list.
Proof.
  apply (parse_paddle_result_app [rec_texts_block] [VList [hello_entry]]);
    reflexivity.
Defined.

(** ** parse_paddle_result on the two known dialects *)

Lemma nonblank_truthy (t : string) :
  py_bool (VStr t) && nonempty (strip (py_str (VStr t))) = nonblank t.
Proof.
  unfold nonblank. cbn [py_bool py_str].
  destruct t as [|c t]; [reflexivity|]. reflexivity.
Qed.

Lemma append_text_str (lines : list string) (t : string) :
  append_text lines (VStr t) = (lines ++ trimmed_texts [t])%list.
Proof.
  unfold append_text, trimmed_texts. rewrite nonblank_truthy.
  cbn [filter py_str]. destruct (nonblank t); cbn [map];
    [reflexivity | now rewrite app_nil_r].
Qed.

Lemma trimmed_texts_app (xs ys : list string) :
  trimmed_texts (xs ++ ys) = (trimmed_texts xs ++ trimmed_texts ys)%list.
Proof. unfold trimmed_texts. now rewrite filter_app, map_app. Qed.

Lemma trimmed_texts_cons (x : string) (xs : list string) :
  trimmed_texts (x :: xs) = (trimmed_texts [x] ++ trimmed_texts xs)%list.
Proof. apply (trimmed_texts_app [x] xs). Qed.

Lemma texts_loop (texts : list string) (lines : list string) :
  for_each (map VStr texts) (fun lines0 t => Ok (append_text lines0 t)) lines
  = Ok (lines ++ trimmed_texts texts)%list.
Proof.
  revert lines. induction texts as [|t texts IH]; intros lines; cbn [map for_each].
  - unfold trimmed_texts. cbn. now rewrite app_nil_r.
  - rewrite IH, append_text_str, (trimmed_texts_cons t texts).
    now rewrite app_assoc.
Qed.

Lemma entry_step (lines : list string) (e : value * string * value) :
  item_step lines (entry_value e) = Ok (lines ++ trimmed_texts [entry_text e])%list.
Proof.
  destruct e as [[box text] score]. unfold item_step, entry_value, entry_text.
  cbn [subscript nth_error res_bind is_list_or_tuple res_try].
  now rewrite append_text_str.
Qed.

Lemma entries_loop (entries : list (value * string * value)) (lines : list string) :
  for_each (map entry_value entries) item_step lines
  = Ok (lines ++ trimmed_texts (map entry_text entries))%list.
Proof.
  revert lines. induction entries as [|e entries IH]; intros lines; cbn [map for_each].
  - unfold trimmed_texts. cbn. now rewrite app_nil_r.
  - rewrite entry_step, IH,
      (trimmed_texts_cons (entry_text e) (map entry_text entries)).
    now rewrite app_assoc.
Qed.

(** Extra (parse_paddle_result, first dialect): for a raw result that is a
    list of blocks, each a list of entries [box, (text, score)] with [text] a
    str, whatever the boxes and the scores are, the result is the texts of
    the entries in their order, each trimmed, without the blank ones. *)
Theorem parse_entry_blocks (blocks : list (list (value * string * value))) :
  parse_paddle_result (VList (map (fun entries => VList (map entry_value entries)) blocks))
  = Ok (trimmed_texts (map entry_text (List.concat blocks))).
Proof.
  assert (H : forall lines,
             for_each (map (fun entries => VList (map entry_value entries)) blocks)
                      block_step lines
             = Ok (lines ++ trimmed_texts (map entry_text (List.concat blocks)))%list).
  { induction blocks as [|entries blocks IH]; intros lines; cbn [map for_each List.concat].
    - unfold trimmed_texts. cbn. now rewrite app_nil_r.
    - cbn [block_step]. rewrite entries_loop, IH, map_app, trimmed_texts_app.
      now rewrite app_assoc. }
  unfold parse_paddle_result, parse_body. now rewrite (H []).
Qed.

(** Extra (parse_paddle_result, second dialect): for a raw result that is a
    list of block records, each holding under ["rec_texts"] a list of strs
    (and whatever else under other keys), the result is those texts in
    their order, each trimmed, without the blank ones. *)
Theorem parse_rec_texts_blocks (blocks : list value) (texts : list (list string)) :
  Forall2 holds_rec_texts blocks texts ->
  parse_paddle_result (VList blocks) = Ok (trimmed_texts (List.concat texts)).
Proof.
  intros Hblocks.
  assert (H : forall lines,
             for_each blocks block_step lines
             = Ok (lines ++ trimmed_texts (List.concat texts))%list).
  { induction Hblocks as [|block ts blocks texts (kvs & -> & Hkey) _ IH];
      intros lines; cbn [for_each List.concat].
    - unfold trimmed_texts. cbn. now rewrite app_nil_r.
    - cbn [block_step]. rewrite Hkey. cbn [py_iter res_bind].
      rewrite texts_loop, IH, trimmed_texts_app. now rewrite app_assoc. }
  unfold parse_paddle_result, parse_body. now rewrite (H []).
Qed.

Lemma parse_rec_texts_blocks_witness :
  parse_paddle_result
    (VList [ VDict [("rec_scores", VList [VFloat "0.9"]);
                    ("rec_texts", VList (map VStr [" one "; "   "]))];
             VDict [("rec_texts", VList (map VStr ["two"]))] ])
  = Ok (trimmed_texts (List.concat [[" one "; "   "]; ["two"]])).
Proof.
  apply parse_rec_texts_blocks.
  constructor; [eexists; split; reflexivity|].
  constructor; [eexists; split; reflexivity|].
  constructor.
Defined.

(** Each element of a list block adds at most one line. *)
Lemma item_step_adds_at_most_one (lines lines' : list string) (item : value) :
  item_step lines item = Ok lines' ->
  (List.length lines <= List.length lines' <= S (List.length lines))%nat.
Proof.
  assert (Happend : forall t,
             (List.length lines <= List.length (append_text lines t)
              <= S (List.length lines))%nat).
  { intros t. unfold append_text.
    destruct (py_bool t && nonempty (strip (py_str t)));
      [rewrite length_app; cbn|]; lia. }
  unfold item_step, res_try.
  destruct (subscript item 1) as [i1|e1]; cbn [res_bind].
  - destruct (if is_list_or_tuple i1 then subscript i1 0 else Ok i1) as [text|e];
      cbn [res_bind].
    + intros H. inversion H; subst. apply Happend.
    + destruct (is_list_or_tuple item && (2 <=? seq_len item)%nat).
      * destruct (subscript item 0); cbn; intros H; inversion H; subst;
          [rewrite length_app; cbn|]; lia.
      * intros H. inversion H; subst. lia.
  - destruct (is_list_or_tuple item && (2 <=? seq_len item)%nat).
    + destruct (subscript item 0); cbn; intros H; inversion H; subst;
        [rewrite length_app; cbn|]; lia.
    + intros H. inversion H; subst. lia.
Qed.

Lemma items_loop_bound (items : list value) (lines : list string) :
  exists lines',
    for_each items item_step lines = Ok lines'
    /\ (List.length lines' <= List.length lines + List.length items)%nat.
Proof.
  revert lines. induction items as [|item items IH]; intros lines; cbn [for_each].
  - exists lines. split; [reflexivity | cbn; lia].
  - destruct (item_step_total lines item) as [lines1 H1]. rewrite H1.
    apply item_step_adds_at_most_one in H1.
    destruct (IH lines1) as (lines' & H & Hlen).
    exists lines'. split; [exact H | cbn; lia].
Qed.

(** Extra (parse_paddle_result): for a raw result whose blocks are all
    lists, whatever their elements are, the walk never reaches the last
    resort and the result holds at most one line per element. *)
Theorem list_blocks_line_count (blocks : list (list value)) :
  exists lines,
    parse_body (VList (map VList blocks)) = Ok lines
    /\ parse_paddle_result (VList (map VList blocks)) = Ok lines
    /\ (List.length lines <= List.length (List.concat blocks))%nat.
Proof.
  assert (H : forall lines0, exists lines,
               for_each (map VList blocks) block_step lines0 = Ok lines
               /\ (List.length lines
                   <= List.length lines0 + List.length (List.concat blocks))%nat).
  { induction blocks as [|items blocks IH]; intros lines0; cbn [map for_each List.concat].
    - exists lines0. split; [reflexivity | cbn; lia].
    - cbn [block_step].
      destruct (items_loop_bound items lines0) as (lines1 & H1 & Hlen1).
      rewrite H1. destruct (IH lines1) as (lines & H & Hlen).
      exists lines. split; [exact H | rewrite length_app; lia]. }
  destruct (H []) as (lines & Hwalk & Hlen).
  exists lines. unfold parse_paddle_result, parse_body.
  rewrite Hwalk. cbn in Hlen. auto.
Qed.

(** ** safe_call_ocr: what it leaves alone *)

Lemma remove_path_subset (p q : string) (files : list string) :
  In q (remove_path p files) -> In q files.
Proof. unfold remove_path. intros H. now apply filter_In in H. Qed.

Lemma remove_path_keeps (p q : string) (files : list string) :
  In q files -> q <> p -> In q (remove_path p files).
Proof.
  unfold remove_path. intros Hin Hne. apply filter_In. split; [exact Hin|].
  apply negb_true_iff. now apply String.eqb_neq.
Qed.

(** Extra (safe_call_ocr): whatever the collaborators do, a call leaves the
    conversation history as it was; a file is on disk afterwards only if it
    was there before or is the temporary file the call created, and a file
    that was there before is missing afterwards only if it is the one the
    call removed with [os.remove]. *)
Theorem safe_call_ocr_frame :
  forall h model img is_path w,
  exists r w' events,
    safe_call_ocr h model img is_path w = (Ok r, w')
    /\ log w' = (log w ++ events)%list
    /\ messages w' = messages w
    /\ (forall q, In q (disk w') -> In q (disk w) \/ In (TempFile q) events)
    /\ (forall q, In q (disk w) -> In q (disk w') \/ In (OsRemove q true) events).
Proof.
  intros h model img is_path w. run_M.
  destruct (ocr model w img) as [v|e1] eqn:Hocr;
    destruct is_path; rewrite Hocr; cbn [is_ok negb];
    case_on_outcomes;
    do 3 eexists;
    (split; [reflexivity|]);
    (split; [cbn [log]; rewrite <- ?app_assoc;
             first [reflexivity | symmetry; apply app_nil_r]|]);
    (split; [reflexivity|]);
    cbn [disk];
    (split; intros q Hq;
     [ first [ now left
             | apply remove_path_subset in Hq;
               destruct Hq as [<- | Hq]; [right; cbn; auto 10 | now left]
             | destruct Hq as [<- | Hq]; [right; cbn; auto 10 | now left] ]
     | first [ now left
             | left; right; exact Hq
             | match goal with
               | |- In _ (remove_path ?p _) \/ _ =>
                   destruct (String.eqb_spec q p) as [-> | Hne];
                   [ right; cbn; auto 10
                   | left; apply remove_path_keeps; [right; exact Hq | exact Hne] ]
               end ] ]).
Qed.

(** Extra (safe_call_ocr): with [is_path] true the call never touches the
    disk: it creates no temporary file and removes nothing; all it does is
    call the engine, once or twice. *)
Theorem safe_call_ocr_on_a_path :
  forall h model img w,
  exists r w' events,
    safe_call_ocr h model img true w = (Ok r, w')
    /\ log w' = (log w ++ events)%list
    /\ disk w' = disk w
    /\ forallb engine_call events = true
    /\ (1 <= List.length events <= 2)%nat.
Proof.
  intros h model img w. run_M.
  destruct (ocr model w img) as [v|e1] eqn:Hocr; cbn [is_ok negb];
    case_on_outcomes;
    do 3 eexists;
    (split; [reflexivity|]);
    (split; [cbn [log]; rewrite <- ?app_assoc; reflexivity|]);
    (split; [reflexivity|]);
    (split; [reflexivity | cbn; lia]).
Qed.

(** ** The Extract Text button *)




(** ** ask_ollama on a 200 response *)

(** Extra (ask_ollama): on a response with status 200 whose body is a JSON
    object, the reply is the value under "response", and the empty string
    when the object has no such key; when the body is not JSON, or is JSON
    but not an object, the reply is a text that starts with
    "Ollama error: ". *)
Theorem ask_ollama_on_status_200 :
  forall h prompt w r,
    post h w (ollama_request prompt) = Ok r ->
    resp_status r = 200%Z ->
    (forall kvs v,
        resp_json r = Ok (VDict kvs) -> dict_lookup "response" kvs = Some v ->
        fst (ask_ollama h prompt w) = Ok v)
    /\ (forall kvs,
           resp_json r = Ok (VDict kvs) -> dict_lookup "response" kvs = None ->
           fst (ask_ollama h prompt w) = Ok (VStr ""))
    /\ (forall e,
           resp_json r = Raise e ->
           fst (ask_ollama h prompt w) = Ok (VStr ("Ollama error: " ++ exn_str e)))
    /\ (forall body,
           resp_json r = Ok body -> (forall kvs, body <> VDict kvs) ->
           fst (ask_ollama h prompt w)
           = Ok (VStr ("Ollama error: '" ++ type_name body
                         ++ "' object has no attribute 'get'"))).
Proof.
  intros h prompt w r Hpost Hstatus.
  repeat split; intros; run_ollama; rewrite Hpost, Hstatus; cbn [Z.eqb Pos.eqb].
  - rewrite H. cbn. now rewrite H0.
  - rewrite H. cbn. now rewrite H0.
  - now rewrite H.
  - rewrite H. destruct body; try reflexivity. now contradiction (H0 kvs).
Qed.

Lemma ask_ollama_on_status_200_witness :
  fst (ask_ollama working_host "hello there" empty_world) = Ok (VStr "ok").
Proof.
  destruct (ask_ollama_on_status_200 working_host "hello there" empty_world
              (mk_response 200 "{}" (Ok (VDict [("response", VStr "ok")])))
              eq_refl eq_refl) as (Hvalue & _).
  exact (Hvalue [("response", VStr "ok")] (VStr "ok") eq_refl eq_refl).
Defined.

(** ** The Send button: history and calls *)







(** ** The file uploader *)

Lemma length_string_app (s t : string) :
  String.length (s ++ t) = (String.length s + String.length t)%nat.
Proof. induction s as [|c s IH]; cbn; [reflexivity | now rewrite IH]. Qed.

Lemma string_app_empty (s : string) : s ++ EmptyString = s.
Proof. induction s as [|c s IH]; cbn; [reflexivity | now rewrite IH]. Qed.

Lemma substring_from_start (n : nat) (s : string) :
  exists rest,
    s = substring 0 n s ++ rest
    /\ String.length (substring 0 n s) = Nat.min n (String.length s).
Proof.
  revert s. induction n as [|n IH]; intros s.
  - exists s. destruct s; split; reflexivity.
  - destruct s as [|c s].
    + exists EmptyString. split; reflexivity.
    + destruct (IH s) as (rest & Hs & Hlen). exists rest. cbn [substring].
      split; [cbn; now rewrite <- Hs | cbn; now rewrite Hlen].
Qed.

(** Extra (file upload): the handler raises nothing and touches neither the
    disk nor the call log.  When the file does not decode, the history is
    unchanged.  When it decodes, exactly one assistant message is appended,
    whose preview is the first 500 characters of the text, or the whole text
    when it has at most 500; the message ends with "..." in both cases. *)
Theorem file_upload_preview :
  forall decoded w,
  exists w',
    file_uploaded decoded w = (Ok tt, w')
    /\ disk w' = disk w
    /\ log w' = log w
    /\ (forall e, decoded = Raise e -> w' = w)
    /\ (forall content,
           decoded = Ok content ->
           exists preview rest,
             content = preview ++ rest
             /\ String.length preview = Nat.min 500 (String.length content)
             /\ (String.length content <= 500 -> preview = content)%nat
             /\ messages w'
                = (messages w
                   ++ [mk_message "assistant"
                         (VStr ("File uploaded. Preview:" ++ newline
                                  ++ preview ++ "..."))])%list).
Proof.
  intros decoded w. unfold file_uploaded, try_except, bind, lift, append_message, ret.
  destruct decoded as [content|e]; cbv zeta.
  - eexists. split; [reflexivity|]. cbn [disk messages log].
    split; [reflexivity|]. split; [reflexivity|]. split; [discriminate|].
    intros content' Hc. inversion Hc; subst content'.
    destruct (substring_from_start 500 content) as (rest & Hs & Hlen).
    exists (substring 0 500 content), rest.
    split; [exact Hs|]. split; [exact Hlen|]. split; [|reflexivity].
    intros Hshort.
    assert (Hrest : String.length rest = 0%nat).
    { apply (f_equal String.length) in Hs.
      rewrite length_string_app, Hlen in Hs. lia. }
    destruct rest; [|discriminate Hrest].
    rewrite string_app_empty in Hs. now symmetry.
  - exists w. split; [reflexivity|]. split; [reflexivity|]. split; [reflexivity|].
    split; [reflexivity | discriminate].
Qed.

(** ** safe_call_ocr: the result is the engine's *)

(** Extra (safe_call_ocr): a returned triple carries one of the four
    strategy names, and a name other than "failed_all" comes with no
    captured error and with exactly the value the named call returned:
    [model.ocr] on the input as given, [model.predict] on it after the
    primary call failed, or [model.ocr] on the path of the temporary file
    (only for an input that is not a path). *)
Theorem safe_call_ocr_passes_result_through :
  forall h model img is_path w result method err w',
    safe_call_ocr h model img is_path w = (Ok (Triple result method err), w') ->
    (method = "ocr(img)" /\ err = None /\ ocr model w img = Ok result)
    \/ (method = "predict(img)" /\ err = None
        /\ exists f,
             predict model = Some f
             /\ f (record_event (CallOcr img false) w) img = Ok result)
    \/ (method = "ocr(path)" /\ err = None /\ is_path = false
        /\ exists w0 tmp_path,
             In (TempFile tmp_path) (log w')
             /\ ocr model w0 (ImgPath tmp_path) = Ok result)
    \/ (method = "failed_all" /\ result = VNone /\ err <> None).
Proof.
  intros h model img is_path w result method err w'. run_M.
  destruct (ocr model w img) as [v|e1] eqn:Hocr;
    destruct is_path; rewrite Hocr; cbn [is_ok negb];
    case_on_outcomes;
    intros Hrun; inversion Hrun; subst; clear Hrun;
    first [ left; repeat split; reflexivity
          | right; left; repeat split; eexists; split; [reflexivity | eassumption]
          | right; right; right; repeat split; discriminate
          | right; right; left; repeat split;
            do 2 eexists; split; [|eassumption];
            cbn [log]; rewrite ?in_app_iff; cbn; auto 10 ].
Qed.

Lemma safe_call_ocr_passes_result_through_witness :
  ("ocr(img)" = "ocr(img)" /\ @None (list exn) = None
   /\ ocr hello_engine empty_world a_pixel_array = Ok (VList [VList [hello_entry]]))
  \/ ("ocr(img)" = "predict(img)" /\ @None (list exn) = None
      /\ exists f,
           predict hello_engine = Some f
           /\ f (record_event (CallOcr a_pixel_array false) empty_world) a_pixel_array
              = Ok (VList [VList [hello_entry]]))
  \/ ("ocr(img)" = "ocr(path)" /\ @None (list exn) = None /\ false = false
      /\ exists w0 tmp_path,
           In (TempFile tmp_path) (log (mk_world [] [] [CallOcr a_pixel_array true]))
           /\ ocr hello_engine w0 (ImgPath tmp_path) = Ok (VList [VList [hello_entry]]))
  \/ ("ocr(img)" = "failed_all" /\ VList [VList [hello_entry]] = VNone
      /\ @None (list exn) <> None).
Proof.
  exact (safe_call_ocr_passes_result_through
           working_host hello_engine a_pixel_array false empty_world
           (VList [VList [hello_entry]]) "ocr(img)" None
           (mk_world [] [] [CallOcr a_pixel_array true]) eq_refl).
Defined.
